(** * Ember firmware: terminal status reporter and event dispatch

  Shallow embedding of [TerminalUI::Callback] (src/C++/TerminalUI.cpp) and
  of the event handler declared in src/gem/include/EventHandler.h. *)

From Stdlib Require Import ZArith Ascii String List Bool Lia.
From stdpp Require Import gmap strings list fin_maps.

Local Open Scope Z_scope.

(** ** C integers *)

Module Int.

Definition min_signed : Z := -2147483648.
Definition max_signed : Z := 2147483647.

Definition in_range (z : Z) : bool :=
  (min_signed <=? z) && (z <=? max_signed).

(** A C [int]: a 32-bit two's complement value. *)
Record int : Type := mkint { intval : Z; intrange : in_range intval = true }.

(** The [int] with value [z], for a literal in range. *)
Abbreviation lit z := (mkint z eq_refl) (only parsing).

End Int.

Abbreviation int := Int.int.

(** ** The [%d] conversion and [sprintf] *)

Module Printf.

Definition digit_char (d : Z) : ascii := ascii_of_nat (48 + Z.to_nat d).

(** Decimal digits of a non-negative number, most significant first,
    pushed in front of [acc]. *)
Fixpoint decimal_digits (fuel : nat) (n : Z) (acc : string) : string :=
  match fuel with
  | O => acc
  | S fuel' =>
      let acc' := String (digit_char (n mod 10)) acc in
      if n / 10 =? 0 then acc' else decimal_digits fuel' (n / 10) acc'
  end.

(** Enough fuel for every digit of [n]. *)
Definition digits_fuel (n : Z) : nat := S (Z.to_nat (Z.log2 n)).

(** What [%d] prints for an [int] argument. *)
Definition string_of_int (z : Z) : string :=
  if z <? 0
  then String "-" (decimal_digits (digits_fuel (- z)) (- z) EmptyString)
  else decimal_digits (digits_fuel z) z EmptyString.

(** Reading a decimal numeral back, continuing from the value [acc]. *)
Definition digit_value (c : ascii) : Z := Z.of_nat (nat_of_ascii c) - 48.

Fixpoint parse_digits (s : string) (acc : Z) : Z :=
  match s with
  | EmptyString => acc
  | String c s' => parse_digits s' (10 * acc + digit_value c)
  end.

Definition parse_int (s : string) : Z :=
  match s with
  | String c s' =>
      if Ascii.eqb c "-" then - parse_digits s' 0 else parse_digits s 0
  | EmptyString => 0
  end.

(** [format fmt args]: the text [printf]-style formatting produces.
    Only the directives [%d] and [%%] are interpreted; a missing argument
    or another directive has no defined result. *)
Fixpoint format (fmt : string) (args : list Z) : option string :=
  match fmt with
  | EmptyString => Some EmptyString
  | String c rest =>
      if Ascii.eqb c "%" then
        match rest with
        | EmptyString => None
        | String d rest' =>
            if Ascii.eqb d "d" then
              match args with
              | [] => None
              | a :: args' =>
                  option_map (String.append (string_of_int a)) (format rest' args')
              end
            else if Ascii.eqb d "%" then
              option_map (String "%") (format rest' args)
            else None
        end
      else option_map (String c) (format rest args)
  end.

(** [sprintf] into a buffer of [size] bytes: the text and its terminating
    NUL must fit, writing past the buffer has no defined result. *)
Definition sprintf (size : nat) (fmt : string) (args : list Z) : option string :=
  match format fmt args with
  | Some s => if (String.length s <? size)%nat then Some s else None
  | None => None
  end.

End Printf.

(** ** Data model of the status reporter *)

(** [EventType], [PrintEngineState] and [UISubState] are C enumerations; the
    callback only compares them with an enumerator, hands them to a name
    table, or logs them as a number. *)
Definition EventType : Type := Z.
Definition PrintEngineState : Type := Z.
Definition UISubState : Type := Z.

(** Modelled from the spec: the enumeration of transition markers
    (PrinterStatus.h is not part of the sources): "a transition marker
    (entering / leaving / steady)". *)
Inductive StateChange : Type := NoChange | Entering | Leaving.

(** The comparison [==] on transition markers. *)
Definition StateChange_eqb (a b : StateChange) : bool :=
  match a, b with
  | NoChange, NoChange | Entering, Entering | Leaving, Leaving => true
  | _, _ => false
  end.

(** Modelled from the spec: the fields of [PrinterStatus] that the callback
    reads (PrinterStatus.h is not part of the sources): a state identifier,
    a sub-state identifier, a transition marker and the three progress
    fields, which are C ints. *)
Record PrinterStatus : Type := mkPrinterStatus {
  _state : PrintEngineState;
  _UISubState : UISubState;
  _change : StateChange;
  _currentLayer : int;
  _numLayers : int;
  _estimatedSecondsRemaining : int
}.

(** What the [void* data] argument points to. *)
Inductive object : Type :=
| ObjPrinterStatus (ps : PrinterStatus)
| ObjOther (raw : list Z).

(** The cast [(PrinterStatus* )data] followed by a field access. *)
Definition as_PrinterStatus (data : object) : option PrinterStatus :=
  match data with
  | ObjPrinterStatus ps => Some ps
  | ObjOther _ => None
  end.

(** Priorities of <syslog.h>. *)
Inductive Priority : Type :=
| LOG_EMERG | LOG_ALERT | LOG_CRIT | LOG_ERR
| LOG_WARNING | LOG_NOTICE | LOG_INFO | LOG_DEBUG.

(** One call of [LOGGER.LogError(priority, errnum, format, value)]. *)
Record LogCall : Type := mkLogCall {
  log_priority : Priority;
  log_errnum : Z;
  log_format : string;
  log_value : Z
}.

(** The part of the process state the callback can touch: the text written
    to [std::cout], the calls received by the logger, and [errno]. *)
Record World : Type := mkWorld {
  cout : string;
  logged : list LogCall;
  errno : Z
}.

Definition write_cout (s : string) (w : World) : World :=
  {| cout := String.append (cout w) s; logged := logged w; errno := errno w |}.

Definition LogError (p : Priority) (errnum : Z) (fmt : string) (value : Z)
  (w : World) : World :=
  {| cout := cout w;
     logged := logged w ++ [mkLogCall p errnum fmt value];
     errno := errno w |}.

(** [std::endl]. *)
Definition endl : string := String (ascii_of_nat 10) EmptyString.

(** Modelled from the spec: the macro [PRINTER_STATUS_FORMAT]
    (MessageStrings.h is not part of the sources): "a progress fragment
    formatted as <currentLayer>/<numLayers>,
    <estimatedSecondsRemaining>s remaining". *)
Definition PRINTER_STATUS_FORMAT : string := "%d/%d, %ds remaining".

(** Size of the local [char statusMsg[256]]. *)
Definition statusMsg_size : nat := 256.

Section TerminalUI.

(** Enumerators and name tables of headers that are not part of the
    sources. *)
Variable PrinterStatusUpdate : EventType.
Variable NoUISubState : UISubState.
Variable STATE_NAME : PrintEngineState -> string.
Variable SUBSTATE_NAME : UISubState -> string.
Variable UnexpectedEvent : Z.
Variable ERR_MSG : Z -> string.

(** [TerminalUI::Callback].  [None] stands for an execution without defined
    behaviour (a payload of the wrong type behind [data], or [statusMsg]
    overrun). *)
Definition Callback (eventType : EventType) (data : object) (w : World)
  : option World :=
  if eventType =? PrinterStatusUpdate then
    pPS ← as_PrinterStatus data;
    let change :=
      if StateChange_eqb (_change pPS) Entering then "entering "
      else if StateChange_eqb (_change pPS) Leaving then "leaving "
      else EmptyString in
    let substate :=
      if negb (_UISubState pPS =? NoUISubState)
      then SUBSTATE_NAME (_UISubState pPS)
      else EmptyString in
    let w :=
      write_cout substate
        (write_cout " "
           (write_cout (STATE_NAME (_state pPS)) (write_cout change w))) in
    w ← (if negb (Int.intval (_currentLayer pPS) =? 0)
         then
           statusMsg ← Printf.sprintf statusMsg_size PRINTER_STATUS_FORMAT
                         [Int.intval (_currentLayer pPS);
                          Int.intval (_numLayers pPS);
                          Int.intval (_estimatedSecondsRemaining pPS)];
           Some (write_cout statusMsg w)
         else Some w);
    Some (write_cout endl w)
  else
    Some (LogError LOG_WARNING (errno w) (ERR_MSG UnexpectedEvent) eventType w).

(** The pieces of one status line. *)
Definition change_word (c : StateChange) : string :=
  match c with
  | Entering => "entering "
  | Leaving => "leaving "
  | NoChange => EmptyString
  end.

Definition substate_name (sub : UISubState) : string :=
  if sub =? NoUISubState then EmptyString else SUBSTATE_NAME sub.

Definition progress_text (cur num secs : Z) : string :=
  Printf.string_of_int cur +:+ "/" +:+ Printf.string_of_int num +:+ ", "
  +:+ Printf.string_of_int secs +:+ "s remaining".

Definition progress_fragment (ps : PrinterStatus) : string :=
  if Int.intval (_currentLayer ps) =? 0 then EmptyString
  else progress_text (Int.intval (_currentLayer ps)) (Int.intval (_numLayers ps))
         (Int.intval (_estimatedSecondsRemaining ps)).

(** What follows the state name on a status line. *)
Definition line_tail (ps : PrinterStatus) : string :=
  " " +:+ substate_name (_UISubState ps) +:+ progress_fragment ps +:+ endl.

Definition status_line (ps : PrinterStatus) : string :=
  change_word (_change ps) +:+ STATE_NAME (_state ps) +:+ line_tail ps.

(** The status line as the specification words it: transition word, state
    name, sub-state name when present, progress fragment when the current
    layer is non-zero, line break. *)
Definition spec_status_line (ps : PrinterStatus) : string :=
  change_word (_change ps) +:+ STATE_NAME (_state ps)
  +:+ substate_name (_UISubState ps) +:+ progress_fragment ps +:+ endl.

End TerminalUI.

(** Number of line breaks in a text. *)
Fixpoint line_breaks (s : string) : nat :=
  match s with
  | EmptyString => O
  | String c s' =>
      if Ascii.eqb c (ascii_of_nat 10) then S (line_breaks s') else line_breaks s'
  end.

(** A sample choice of the enumerators and name tables that the missing
    headers define, for running the callback on concrete payloads. *)
Module Sample.

Definition PrinterStatusUpdate : EventType := 4.
Definition DoorInterrupt : EventType := 3.
Definition NoUISubState : UISubState := 0.
Definition Printing : PrintEngineState := 7.
Definition UnexpectedEvent : Z := 12.

Definition STATE_NAME (s : PrintEngineState) : string :=
  if s =? Printing then "Printing" else "Home".

Definition SUBSTATE_NAME (sub : UISubState) : string :=
  if sub =? 1 then "Downloading" else EmptyString.

Definition ERR_MSG (code : Z) : string :=
  if code =? UnexpectedEvent then "Unexpected event type: %d" else EmptyString.

Definition TerminalUI_Callback : EventType -> object -> World -> option World :=
  Callback PrinterStatusUpdate NoUISubState STATE_NAME SUBSTATE_NAME
    UnexpectedEvent ERR_MSG.

Definition fresh : World := {| cout := EmptyString; logged := []; errno := 0 |}.

(** Printing, no sub-state, no transition, no print in progress. *)
Definition idle_status : PrinterStatus :=
  mkPrinterStatus Printing NoUISubState NoChange (Int.lit 0) (Int.lit 0) (Int.lit 0).

(** Entering Printing, layer 1 of 5, 120 seconds remaining. *)
Definition entering_status : PrinterStatus :=
  mkPrinterStatus Printing NoUISubState Entering (Int.lit 1) (Int.lit 5) (Int.lit 120).

(** Layer 3 of 10, 42 seconds remaining. *)
Definition progress_status : PrinterStatus :=
  mkPrinterStatus Printing NoUISubState NoChange (Int.lit 3) (Int.lit 10) (Int.lit 42).

End Sample.

(** ** Event multiplexing and dispatch

    Only the class declaration of [EventHandler] is part of the sources
    ([SetFileDescriptor], [Subscribe], [Begin], the table [_pEvents]); the
    bodies, [Event] and the hardware layer are modelled from the spec. *)

Definition Handle : Type := Z.
Definition Subscriber : Type := nat.

(** Operating-system calls that change which resources the process holds. *)
Inductive SysCall : Type :=
| SysExport (e : EventType)
| SysSetEdge (e : EventType)
| SysOpen (e : EventType) (fd : Handle)
| SysClose (e : EventType) (fd : Handle)
| SysUnexport (e : EventType).

(** Modelled from the spec: the state behind HardwareResource (Hardware.h
    is not part of the sources): the pins currently exported, the
    descriptors currently open, and the system calls performed so far. *)
Record Hardware : Type := mkHardware {
  exported : gset Z;
  opened : gmap Z Handle;
  syscalls : list SysCall
}.

(** How the platform answers one attempt to acquire a resource: the setup
    is "exporting a GPIO pin, setting edge-trigger mode, opening the
    resulting descriptor", and each step can fail. *)
Inductive AcquireOutcome : Type :=
| ExportFails
| SetEdgeFails
| OpenFails
| Acquired (fd : Handle).

Definition sys_export (e : EventType) (hw : Hardware) : Hardware :=
  {| exported := {[e]} ∪ exported hw;
     opened := opened hw;
     syscalls := syscalls hw ++ [SysExport e] |}.

Definition sys_set_edge (e : EventType) (hw : Hardware) : Hardware :=
  {| exported := exported hw;
     opened := opened hw;
     syscalls := syscalls hw ++ [SysSetEdge e] |}.

Definition sys_open (e : EventType) (fd : Handle) (hw : Hardware) : Hardware :=
  {| exported := exported hw;
     opened := <[e := fd]> (opened hw);
     syscalls := syscalls hw ++ [SysOpen e fd] |}.

Definition sys_close (e : EventType) (fd : Handle) (hw : Hardware) : Hardware :=
  {| exported := exported hw;
     opened := delete e (opened hw);
     syscalls := syscalls hw ++ [SysClose e fd] |}.

Definition sys_unexport (e : EventType) (hw : Hardware) : Hardware :=
  {| exported := exported hw ∖ {[e]};
     opened := opened hw;
     syscalls := syscalls hw ++ [SysUnexport e] |}.

(** Modelled from the spec: HardwareResource.Acquire,
    "Acquire(EventType) -> WaitableHandle | Fails(HardwareUnavailable)".
    A failing step leaves the earlier steps' side effects in place. *)
Definition Acquire (platform : EventType -> AcquireOutcome) (e : EventType)
  (hw : Hardware) : option Handle * Hardware :=
  match platform e with
  | ExportFails => (None, hw)
  | SetEdgeFails => (None, sys_export e hw)
  | OpenFails => (None, sys_set_edge e (sys_export e hw))
  | Acquired fd => (Some fd, sys_open e fd (sys_set_edge e (sys_export e hw)))
  end.

(** Modelled from the spec: HardwareResource.Release, "Release must undo
    every side effect Acquire performed, even if Acquire partially failed
    partway through a multi-step setup". *)
Definition Release (e : EventType) (hw : Hardware) : Hardware :=
  let hw1 :=
    match opened hw !! e with
    | Some fd => sys_close e fd hw
    | None => hw
    end in
  if decide (e ∈ exported hw1) then sys_unexport e hw1 else hw1.

(** Whether some side effect of acquiring [e] is still in place. *)
Definition held (e : EventType) (hw : Hardware) : bool :=
  bool_decide (e ∈ exported hw) || bool_decide (is_Some (opened hw !! e)).

(** Replaying the system calls on the sets of held resources.  A close or
    an unexport of something that is not held at that point (a double
    release) has no result. *)
Definition sys_step (c : SysCall) (st : gset Z * gmap Z Handle)
  : option (gset Z * gmap Z Handle) :=
  match c with
  | SysExport e => Some ({[e]} ∪ st.1, st.2)
  | SysSetEdge _ => Some st
  | SysOpen e fd => Some (st.1, <[e := fd]> st.2)
  | SysClose e _ =>
      match st.2 !! e with
      | Some _ => Some (st.1, delete e st.2)
      | None => None
      end
  | SysUnexport e =>
      if decide (e ∈ st.1) then Some (st.1 ∖ {[e]}, st.2) else None
  end.

Fixpoint replay (calls : list SysCall) (st : gset Z * gmap Z Handle)
  : option (gset Z * gmap Z Handle) :=
  match calls with
  | [] => Some st
  | c :: rest =>
      match sys_step c st with
      | Some st' => replay rest st'
      | None => None
      end
  end.

(** No system call so far released something that was not held, and what
    is held now is what the calls so far acquired and did not release. *)
Definition well_paired (hw : Hardware) : Prop :=
  replay (syscalls hw) (∅, ∅) = Some (exported hw, opened hw).

(** Modelled from the spec: an Event, "its EventType, the underlying
    descriptor (or unconfigured sentinel)", and whether its resource is
    required at startup. *)
Record Event : Type := mkEvent {
  ev_type : EventType;
  ev_required : bool;
  ev_handle : option Handle
}.

Definition set_handle (h : option Handle) (ev : Event) : Event :=
  {| ev_type := ev_type ev; ev_required := ev_required ev; ev_handle := h |}.

(** Modelled from the spec: Event.Arm, "Arm calls HardwareResource.Acquire
    and records the resulting handle".  When the acquisition fails there is
    no handle to record, and what a partial setup acquired stays in place
    until it is released.  The boolean tells whether arming succeeded. *)
Definition Arm (platform : EventType -> AcquireOutcome) (ev : Event)
  (hw : Hardware) : bool * Event * Hardware :=
  match Acquire platform (ev_type ev) hw with
  | (Some fd, hw') => (true, set_handle (Some fd) ev, hw')
  | (None, hw') => (false, ev, hw')
  end.

(** Modelled from the spec: Event.Disarm, "Disarm calls
    HardwareResource.Release and invalidates the handle". *)
Definition Disarm (ev : Event) (hw : Hardware) : Event * Hardware :=
  (set_handle None ev, Release (ev_type ev) hw).





(** Modelled from the spec: the states of the handler, "Unconfigured ->
    Configured -> Running -> Stopped". *)
Inductive Phase : Type := Unconfigured | Configured | Running | Stopped.

(** One invocation of a subscriber's callback. *)
Record Delivery : Type := mkDelivery {
  dl_subscriber : Subscriber;
  dl_type : EventType;
  dl_payload : object
}.

(** Modelled from the spec: the EventHandler object (its member functions
    are not part of the sources): the Events in configuration order, the
    SubscriptionRegistry, the hardware it drives, and what it has done so
    far (callbacks invoked, warnings logged). *)
Record Handler : Type := mkHandler {
  phase : Phase;
  events : list Event;
  registry : gmap Z (list Subscriber);
  hardware : Hardware;
  delivered : list Delivery;
  warnings : list EventType
}.

Definition EventHandler : Handler :=
  {| phase := Unconfigured;
     events := [];
     registry := ∅;
     hardware := mkHardware ∅ ∅ [];
     delivered := [];
     warnings := [] |}.

Definition find_event (e : EventType) (evs : list Event) : option Event :=
  List.find (fun ev => ev_type ev =? e) evs.

(** Modelled from the spec: configuring an EventType, "associating
    descriptors/resources with EventTypes; may be repeated per type", with
    "exactly one Event instance per EventType that is configured". *)
Definition SetResource (e : EventType) (required : bool) (h : Handler) : Handler :=
  match phase h with
  | Unconfigured | Configured =>
      {| phase := Configured;
         events :=
           match find_event e (events h) with
           | Some _ => events h
           | None => events h ++ [mkEvent e required None]
           end;
         registry := registry h;
         hardware := hardware h;
         delivered := delivered h;
         warnings := warnings h |}
  | _ => h
  end.

(** Modelled from the spec: "SubscribersFor(EventType) -> ordered sequence
    of CallbackConsumer; empty if none registered". *)
Definition SubscribersFor (e : EventType) (reg : gmap Z (list Subscriber))
  : list Subscriber :=
  default [] (reg !! e).

(** Modelled from the spec: "Subscribe(EventType, CallbackConsumer) appends
    to that type's ordered subscriber list"; duplicates are kept. *)
Definition Subscribe (e : EventType) (s : Subscriber) (h : Handler) : Handler :=
  {| phase := phase h;
     events := events h;
     registry := <[e := SubscribersFor e (registry h) ++ [s]]> (registry h);
     hardware := hardware h;
     delivered := delivered h;
     warnings := warnings h |}.



(** Arm every Event in configuration order.  Returns the required
    EventTypes that failed to arm, the Events and the hardware afterwards,
    and the optional EventTypes that failed (logged and skipped). *)
Fixpoint arm_all (platform : EventType -> AcquireOutcome) (evs : list Event)
  (hw : Hardware) : list EventType * list Event * Hardware * list EventType :=
  match evs with
  | [] => ([], [], hw, [])
  | ev :: rest =>
      let '(ok, ev', hw') := Arm platform ev hw in
      let '(failed, rest', hw'', skipped) := arm_all platform rest hw' in
      if ok then (failed, ev' :: rest', hw'', skipped)
      else if ev_required ev then (ev_type ev :: failed, ev' :: rest', hw'', skipped)
      else (failed, ev' :: rest', hw'', ev_type ev :: skipped)
  end.

(** Disarm the given Events from the last configured to the first. *)
Fixpoint disarm_all (evs : list Event) (hw : Hardware) : list Event * Hardware :=
  match evs with
  | [] => ([], hw)
  | ev :: rest =>
      let '(rest', hw') := disarm_all rest hw in
      let '(ev', hw'') := Disarm ev hw' in
      (ev' :: rest', hw'')
  end.

Inductive BeginResult : Type :=
| Started
| StartupFailed (failed : list EventType)
| NotConfigured.

(** Modelled from the spec: EventHandler::Begin. "Arm is called on every
    configured Event; if any required Event fails to arm, the transition
    fails and no loop starts"; then the handler stays Configured "with no
    partial arming left acquired".  An optional Event that fails to arm is
    logged and left unarmed. *)
Definition Begin (platform : EventType -> AcquireOutcome) (h : Handler)
  : BeginResult * Handler :=
  match phase h with
  | Configured =>
      let '(failed, evs, hw, skipped) := arm_all platform (events h) (hardware h) in
      match failed with
      | [] =>
          (Started,
           {| phase := Running;
              events := evs;
              registry := registry h;
              hardware := hw;
              delivered := delivered h;
              warnings := warnings h ++ skipped |})
      | _ :: _ =>
          let '(evs', hw') := disarm_all evs hw in
          (StartupFailed failed,
           {| phase := Configured;
              events := evs';
              registry := registry h;
              hardware := hw';
              delivered := delivered h;
              warnings := warnings h ++ skipped |})
      end
  | _ => (NotConfigured, h)
  end.




(** Modelled from the spec: Running -> Stopped, "Disarm every Event in
    reverse configuration order, release all resources, and return". *)
Definition Stop (h : Handler) : Handler :=
  match phase h with
  | Running =>
      let '(evs, hw) := disarm_all (events h) (hardware h) in
      {| phase := Stopped;
         events := evs;
         registry := registry h;
         hardware := hw;
         delivered := delivered h;
         warnings := warnings h |}
  | _ => h
  end.



(** A small configuration for running the handler: a door sensor and the
    printer status, each required, with one subscriber each. *)
Module Scenario.

Definition reporter : Subscriber := 1%nat.
Definition door_watcher : Subscriber := 2%nat.

(** A platform on which every acquisition succeeds, and one on which the
    door sensor's descriptor cannot be opened. *)
Definition platform (e : EventType) : AcquireOutcome := Acquired (100 + e).

Definition broken_door (e : EventType) : AcquireOutcome :=
  if e =? Sample.DoorInterrupt then OpenFails else Acquired (100 + e).

Definition configured : Handler :=
  Subscribe Sample.PrinterStatusUpdate reporter
    (Subscribe Sample.DoorInterrupt door_watcher
       (SetResource Sample.DoorInterrupt true
          (SetResource Sample.PrinterStatusUpdate true EventHandler))).




Definition running : Handler := (Begin platform configured).2.


Definition door_event : Event := mkEvent Sample.DoorInterrupt true None.





End Scenario.

(** ** Successive invocations of the callback *)

Section Invocations.

Variable PrinterStatusUpdate : EventType.
Variable NoUISubState : UISubState.
Variable STATE_NAME : PrintEngineState -> string.
Variable SUBSTATE_NAME : UISubState -> string.
Variable UnexpectedEvent : Z.
Variable ERR_MSG : Z -> string.

(** The callback invoked once per element, in order, each invocation
    starting from the state the previous one left. *)
Fixpoint Callback_each (calls : list (EventType * object)) (w : World)
  : option World :=
  match calls with
  | [] => Some w
  | (eventType, data) :: rest =>
      w' ← Callback PrinterStatusUpdate NoUISubState STATE_NAME SUBSTATE_NAME
             UnexpectedEvent ERR_MSG eventType data w;
      Callback_each rest w'
  end.

(** The status lines of the printer-status updates among [calls]. *)
Fixpoint status_lines (calls : list (EventType * object)) : string :=
  match calls with
  | [] => EmptyString
  | (eventType, data) :: rest =>
      (if eventType =? PrinterStatusUpdate then
         match as_PrinterStatus data with
         | Some ps => status_line NoUISubState STATE_NAME SUBSTATE_NAME ps
         | None => EmptyString
         end
       else EmptyString)
      +:+ status_lines rest
  end.

(** The event types among [calls] that are not the printer-status
    update. *)
Fixpoint unexpected_events (calls : list (EventType * object)) : list EventType :=
  match calls with
  | [] => []
  | (eventType, _) :: rest =>
      (if eventType =? PrinterStatusUpdate then [] else [eventType])
      ++ unexpected_events rest
  end.

End Invocations.

(** Further sample data: the state after the callback reported
    [Sample.entering_status] from a fresh start, and an idle status that
    differs from [Sample.idle_status] in the unused progress fields. *)
Module SampleRuns.

Definition after_entering : World :=
  {| cout := "entering Printing 1/5, 120s remaining" +:+ endl;
     logged := [];
     errno := 0 |}.

Definition idle_other : PrinterStatus :=
  mkPrinterStatus Sample.Printing Sample.NoUISubState NoChange
    (Int.lit 0) (Int.lit 9) (Int.lit 77).

Definition mixed_events : list (EventType * object) :=
  [(Sample.PrinterStatusUpdate, ObjPrinterStatus Sample.entering_status);
   (Sample.DoorInterrupt, ObjOther [1]);
   (Sample.PrinterStatusUpdate, ObjPrinterStatus Sample.idle_status)].

End SampleRuns.

(** The characters [%d] can print: a sign or a decimal digit. *)
Definition numeral_char (c : ascii) : bool :=
  Ascii.eqb c "-"
  || ((48 <=? nat_of_ascii c)%nat && (nat_of_ascii c <=? 57)%nat).

Fixpoint numeral (s : string) : bool :=
  match s with
  | EmptyString => true
  | String c s' => numeral_char c && numeral s'
  end.

(** * Properties *)

(** ** Strings *)

Lemma append_cons (c : ascii) (s t : string) :
  String c s +:+ t = String c (s +:+ t).
Proof. reflexivity. Qed.

Lemma append_length (s t : string) :
  String.length (s +:+ t) = (String.length s + String.length t)%nat.
Proof.
  induction s as [|c s IH]; [reflexivity|].
  rewrite append_cons. simpl. f_equal. exact IH.
Qed.

Lemma append_assoc (s t u : string) : (s +:+ t) +:+ u = s +:+ (t +:+ u).
Proof.
  induction s as [|c s IH]; [reflexivity|].
  rewrite !append_cons. f_equal. exact IH.
Qed.

Lemma append_nil_r (s : string) : s +:+ EmptyString = s.
Proof.
  induction s as [|c s IH]; [reflexivity|].
  rewrite append_cons. f_equal. exact IH.
Qed.

(** ** C integers *)

Lemma intval_bounds (i : int) :
  Int.min_signed <= Int.intval i <= Int.max_signed.
Proof.
  destruct i as [z Hz]; simpl. unfold Int.in_range in Hz.
  apply andb_true_iff in Hz as [H1 H2].
  apply Z.leb_le in H1. apply Z.leb_le in H2. lia.
Qed.

(** ** The decimal conversion *)

Module PrintfFacts.
Import Printf.

Lemma decimal_digits_length (k : nat) :
  forall (fuel : nat) (n : Z) (acc : string),
    0 <= n < 10 ^ Z.of_nat (S k) ->
    (String.length (decimal_digits fuel n acc) <= S k + String.length acc)%nat.
Proof.
  induction k as [|k IH]; intros fuel n acc Hn.
  - destruct fuel as [|fuel]; simpl; [lia|].
    change (10 ^ Z.of_nat 1) with 10 in Hn.
    rewrite Z.div_small by lia. simpl. lia.
  - destruct fuel as [|fuel]; [simpl; lia|].
    cbn [decimal_digits].
    destruct (n / 10 =? 0) eqn:Hq; [simpl; lia|].
    assert (Hdiv : 0 <= n / 10 < 10 ^ Z.of_nat (S k)).
    { split; [apply Z.div_pos; lia|].
      apply Z.div_lt_upper_bound; [lia|].
      replace (10 * 10 ^ Z.of_nat (S k)) with (10 ^ Z.of_nat (S (S k))); [lia|].
      rewrite (Nat2Z.inj_succ (S k)), Z.pow_succ_r by lia. reflexivity. }
    specialize (IH fuel (n / 10) (String (digit_char (n mod 10)) acc) Hdiv).
    simpl in IH. simpl. lia.
Qed.

Lemma digit_value_char (d : Z) : 0 <= d < 10 -> digit_value (digit_char d) = d.
Proof.
  intros Hd. unfold digit_value, digit_char.
  rewrite nat_ascii_embedding by lia. lia.
Qed.

Lemma parse_decimal_digits (fuel : nat) :
  forall (n : Z) (acc : string),
    0 <= n < 2 ^ Z.of_nat fuel ->
    parse_digits (decimal_digits fuel n acc) 0 = parse_digits acc n.
Proof.
  induction fuel as [|fuel IH]; intros n acc Hn.
  - change (2 ^ Z.of_nat 0) with 1 in Hn.
    replace n with 0 by lia. reflexivity.
  - cbn [decimal_digits].
    assert (Hmod : 0 <= n mod 10 < 10) by (apply Z.mod_pos_bound; lia).
    assert (Hsplit : n = 10 * (n / 10) + n mod 10) by (apply Z.div_mod; lia).
    destruct (n / 10 =? 0) eqn:Hq.
    + apply Z.eqb_eq in Hq. cbn [parse_digits].
      rewrite digit_value_char by exact Hmod. f_equal. lia.
    + apply Z.eqb_neq in Hq.
      rewrite IH.
      * cbn [parse_digits]. rewrite digit_value_char by exact Hmod.
        f_equal. lia.
      * rewrite Nat2Z.inj_succ, Z.pow_succ_r in Hn by lia.
        split; [apply Z.div_pos; lia|].
        apply Z.div_lt_upper_bound; lia.
Qed.

Lemma digits_fuel_enough (n : Z) : 0 <= n -> n < 2 ^ Z.of_nat (digits_fuel n).
Proof.
  intros Hn. unfold digits_fuel.
  rewrite Nat2Z.inj_succ, Z2Nat.id by apply Z.log2_nonneg.
  destruct (Z.eq_dec n 0) as [->|Hne]; [reflexivity|].
  apply Z.log2_spec. lia.
Qed.

Lemma decimal_digits_head (fuel : nat) :
  forall (n : Z) (acc : string),
    exists d s, 0 <= d < 10 /\ decimal_digits (S fuel) n acc = String (digit_char d) s.
Proof.
  induction fuel as [|fuel IH]; intros n acc.
  - exists (n mod 10), acc. split; [apply Z.mod_pos_bound; lia|].
    cbn [decimal_digits]. destruct (n / 10 =? 0); reflexivity.
  - change (decimal_digits (S (S fuel)) n acc)
      with (if n / 10 =? 0 then String (digit_char (n mod 10)) acc
            else decimal_digits (S fuel) (n / 10) (String (digit_char (n mod 10)) acc)).
    destruct (n / 10 =? 0).
    + exists (n mod 10), acc. split; [apply Z.mod_pos_bound; lia | reflexivity].
    + apply IH.
Qed.

Lemma digit_char_not_minus (d : Z) :
  0 <= d < 10 -> Ascii.eqb (digit_char d) "-" = false.
Proof.
  intros Hd. apply Ascii.eqb_neq. intros Heq.
  pose proof (digit_value_char d Hd) as Hv. rewrite Heq in Hv.
  unfold digit_value in Hv.
  change (Z.of_nat (nat_of_ascii "-")) with 45 in Hv. lia.
Qed.

(** The digits printed for a number denote that number: the fuel never
    runs out. *)
Lemma parse_string_of_nonneg (n : Z) :
  0 <= n -> parse_digits (decimal_digits (digits_fuel n) n EmptyString) 0 = n.
Proof.
  intros Hn. rewrite parse_decimal_digits; [reflexivity|].
  split; [exact Hn | apply digits_fuel_enough; exact Hn].
Qed.

(** Reading back what [%d] printed gives the argument. *)
Lemma parse_string_of_int (z : Z) : parse_int (string_of_int z) = z.
Proof.
  unfold string_of_int. destruct (z <? 0) eqn:Hneg.
  - apply Z.ltb_lt in Hneg. cbn [parse_int].
    change (Ascii.eqb "-" "-") with true. cbv iota.
    rewrite parse_string_of_nonneg by lia. lia.
  - apply Z.ltb_ge in Hneg.
    pose proof (parse_string_of_nonneg z Hneg) as Hp.
    unfold digits_fuel in *.
    destruct (decimal_digits_head (Z.to_nat (Z.log2 z)) z EmptyString) as (d & s & Hd & Heq).
    rewrite Heq in *. cbn [parse_int].
    rewrite digit_char_not_minus by exact Hd. exact Hp.
Qed.

(** An [int] prints as at most eleven characters. *)
Lemma string_of_int_length (i : int) :
  (String.length (string_of_int (Int.intval i)) <= 11)%nat.
Proof.
  pose proof (intval_bounds i) as Hb.
  unfold Int.min_signed, Int.max_signed in Hb.
  assert (Hpow : 10 ^ Z.of_nat 10 = 10000000000) by reflexivity.
  unfold string_of_int.
  destruct (Int.intval i <? 0) eqn:Hneg.
  - apply Z.ltb_lt in Hneg.
    pose proof (decimal_digits_length 9 (digits_fuel (- Int.intval i))
                  (- Int.intval i) EmptyString) as H.
    change (String.length EmptyString) with 0%nat in H.
    cbn [String.length]. apply le_n_S.
    rewrite Nat.add_0_r in H. apply H. lia.
  - apply Z.ltb_ge in Hneg.
    pose proof (decimal_digits_length 9 (digits_fuel (Int.intval i))
                  (Int.intval i) EmptyString) as H.
    change (String.length EmptyString) with 0%nat in H.
    rewrite Nat.add_0_r in H. apply Nat.le_trans with 10%nat; [|lia].
    apply H. lia.
Qed.

Example string_of_int_samples :
  string_of_int (-2147483648) = "-2147483648"
  /\ string_of_int 0 = "0"
  /\ string_of_int 120 = "120"
  /\ format "%d%% of %d" [50; 7] = Some "50% of 7"
  /\ format "%d/%d" [1] = None.
Proof. repeat split. Qed.

End PrintfFacts.

(** ** The terminal status reporter *)

Lemma write_cout_twice (s t : string) (w : World) :
  write_cout t (write_cout s w) = write_cout (s +:+ t) w.
Proof. unfold write_cout; simpl. now rewrite append_assoc. Qed.

Lemma format_status (cur num secs : Z) :
  Printf.format PRINTER_STATUS_FORMAT [cur; num; secs]
  = Some (progress_text cur num secs).
Proof. reflexivity. Qed.

(** The progress text of three [int]s always fits into [statusMsg]. *)
Lemma sprintf_status (cur num secs : int) :
  Printf.sprintf statusMsg_size PRINTER_STATUS_FORMAT
    [Int.intval cur; Int.intval num; Int.intval secs]
  = Some (progress_text (Int.intval cur) (Int.intval num) (Int.intval secs)).
Proof.
  unfold Printf.sprintf. rewrite format_status.
  pose proof (PrintfFacts.string_of_int_length cur) as H1.
  pose proof (PrintfFacts.string_of_int_length num) as H2.
  pose proof (PrintfFacts.string_of_int_length secs) as H3.
  assert (Hlen : (String.length
                    (progress_text (Int.intval cur) (Int.intval num) (Int.intval secs))
                  < statusMsg_size)%nat).
  { unfold progress_text, statusMsg_size.
    rewrite !append_length. cbn [String.length]. lia. }
  apply Nat.ltb_lt in Hlen. now rewrite Hlen.
Qed.

Section TerminalUIFacts.

Variable PrinterStatusUpdate : EventType.
Variable NoUISubState : UISubState.
Variable STATE_NAME : PrintEngineState -> string.
Variable SUBSTATE_NAME : UISubState -> string.
Variable UnexpectedEvent : Z.
Variable ERR_MSG : Z -> string.

Local Abbreviation TerminalUI_Callback :=
  (Callback PrinterStatusUpdate NoUISubState STATE_NAME SUBSTATE_NAME
     UnexpectedEvent ERR_MSG).
Local Abbreviation the_status_line := (status_line NoUISubState STATE_NAME SUBSTATE_NAME).
Local Abbreviation the_line_tail := (line_tail NoUISubState SUBSTATE_NAME).

(** The printer-status branch always completes, and writes one status line
    and nothing else. *)
Lemma Callback_status (ps : PrinterStatus) (w : World) :
  TerminalUI_Callback PrinterStatusUpdate (ObjPrinterStatus ps) w
  = Some (write_cout (the_status_line ps) w).
Proof.
  unfold Callback. rewrite Z.eqb_refl. cbn [as_PrinterStatus mbind option_bind].
  rewrite !write_cout_twice.
  assert (Hword : (if StateChange_eqb (_change ps) Entering then "entering "
                   else if StateChange_eqb (_change ps) Leaving then "leaving "
                   else EmptyString) = change_word (_change ps))
    by (destruct (_change ps); reflexivity).
  rewrite Hword.
  unfold status_line, line_tail, progress_fragment, substate_name.
  destruct (Int.intval (_currentLayer ps) =? 0) eqn:Hcur; cbn [negb].
  - cbn [mbind option_bind]. rewrite write_cout_twice. do 2 f_equal.
    destruct (_UISubState ps =? NoUISubState); cbn [negb];
      rewrite !append_assoc; reflexivity.
  - rewrite sprintf_status. cbn [mbind option_bind].
    rewrite !write_cout_twice. do 2 f_equal.
    destruct (_UISubState ps =? NoUISubState); cbn [negb];
      rewrite !append_assoc; reflexivity.
Qed.

(** The default branch only calls the logger. *)
Lemma Callback_unexpected (eventType : EventType) (data : object) (w : World) :
  eventType <> PrinterStatusUpdate ->
  TerminalUI_Callback eventType data w
  = Some (LogError LOG_WARNING (errno w) (ERR_MSG UnexpectedEvent) eventType w).
Proof.
  intros Hne. unfold Callback.
  apply Z.eqb_neq in Hne. now rewrite Hne.
Qed.


(** C1 (as amended). For every printer-status payload the callback writes
    to the status output stream, and to nothing else, exactly: the
    transition word, the state name, one space, the sub-state name when a
    sub-state is present, the progress fragment when the current layer is
    non-zero, and a line break. *)
Theorem Callback_renders_status (ps : PrinterStatus) (w : World) :
  TerminalUI_Callback PrinterStatusUpdate (ObjPrinterStatus ps) w
  = Some {| cout :=
              cout w
              +:+ (match _change ps with
                   | Entering => "entering "
                   | Leaving => "leaving "
                   | NoChange => EmptyString
                   end
                   +:+ STATE_NAME (_state ps)
                   +:+ " "
                   +:+ (if _UISubState ps =? NoUISubState then EmptyString
                        else SUBSTATE_NAME (_UISubState ps))
                   +:+ (if Int.intval (_currentLayer ps) =? 0 then EmptyString
                        else progress_text (Int.intval (_currentLayer ps))
                               (Int.intval (_numLayers ps))
                               (Int.intval (_estimatedSecondsRemaining ps)))
                   +:+ endl);
            logged := logged w;
            errno := errno w |}.
Proof. rewrite Callback_status. reflexivity. Qed.

(** C2. A payload whose current layer is 0 is rendered without any progress
    fragment; a payload with current layer 3, 10 layers and 42 seconds
    remaining is rendered with the progress fragment made of exactly these
    three values. *)
Theorem Callback_progress_fragment :
  (forall (ps : PrinterStatus) (w : World),
      Int.intval (_currentLayer ps) = 0 ->
      TerminalUI_Callback PrinterStatusUpdate (ObjPrinterStatus ps) w
      = Some (write_cout
                (change_word (_change ps) +:+ STATE_NAME (_state ps) +:+ " "
                 +:+ substate_name NoUISubState SUBSTATE_NAME (_UISubState ps)
                 +:+ endl) w))
  /\ (forall (ps : PrinterStatus) (w : World),
         Int.intval (_currentLayer ps) = 3 ->
         Int.intval (_numLayers ps) = 10 ->
         Int.intval (_estimatedSecondsRemaining ps) = 42 ->
         TerminalUI_Callback PrinterStatusUpdate (ObjPrinterStatus ps) w
         = Some (write_cout
                   (change_word (_change ps) +:+ STATE_NAME (_state ps) +:+ " "
                    +:+ substate_name NoUISubState SUBSTATE_NAME (_UISubState ps)
                    +:+ "3/10, 42s remaining"
                    +:+ endl) w)).
Proof.
  split.
  - intros ps w Hcur. rewrite Callback_status.
    unfold status_line, line_tail, progress_fragment.
    rewrite Hcur. reflexivity.
  - intros ps w Hcur Hnum Hsecs. rewrite Callback_status.
    unfold status_line, line_tail, progress_fragment.
    rewrite Hcur, Hnum, Hsecs. reflexivity.
Qed.

(** C3. With the marker Entering the status output gains the word
    "entering " and, immediately after it, the state name; with Leaving it
    gains "leaving " and then the state name; with no change it gains the
    state name first, without either word.  What follows the state name is
    the same in the three cases. *)
Theorem Callback_transition_word
  (st : PrintEngineState) (sub : UISubState) (cur num secs : int) (w : World) :
  let tail :=
    " "
    +:+ (if sub =? NoUISubState then EmptyString else SUBSTATE_NAME sub)
    +:+ (if Int.intval cur =? 0 then EmptyString
         else progress_text (Int.intval cur) (Int.intval num) (Int.intval secs))
    +:+ endl in
  exists w_entering w_leaving w_steady : World,
    (TerminalUI_Callback PrinterStatusUpdate
       (ObjPrinterStatus (mkPrinterStatus st sub Entering cur num secs)) w
     = Some w_entering
     /\ cout w_entering = cout w +:+ "entering " +:+ STATE_NAME st +:+ tail)
    /\ (TerminalUI_Callback PrinterStatusUpdate
          (ObjPrinterStatus (mkPrinterStatus st sub Leaving cur num secs)) w
        = Some w_leaving
        /\ cout w_leaving = cout w +:+ "leaving " +:+ STATE_NAME st +:+ tail)
    /\ (TerminalUI_Callback PrinterStatusUpdate
          (ObjPrinterStatus (mkPrinterStatus st sub NoChange cur num secs)) w
        = Some w_steady
        /\ cout w_steady = cout w +:+ STATE_NAME st +:+ tail).
Proof.
  intros tail. rewrite !Callback_status.
  do 3 eexists. repeat split.
Qed.

(** C4 (as amended). For state Printing, no sub-state, marker Entering,
    layer 1 of 5 and 120 seconds remaining, the callback writes exactly one
    line: "entering Printing", one space, then "1/5, 120s remaining". *)
Theorem Callback_entering_Printing (Printing : PrintEngineState) (w : World) :
  STATE_NAME Printing = "Printing" ->
  let written := "entering Printing 1/5, 120s remaining" +:+ endl in
  TerminalUI_Callback PrinterStatusUpdate
    (ObjPrinterStatus
       (mkPrinterStatus Printing NoUISubState Entering
          (Int.lit 1) (Int.lit 5) (Int.lit 120))) w
  = Some (write_cout written w)
  /\ line_breaks written = 1%nat.
Proof.
  intros Hname written. split; [|reflexivity].
  rewrite Callback_status.
  unfold status_line, line_tail, progress_fragment, substate_name.
  cbn [_state _UISubState _change _currentLayer _numLayers
       _estimatedSecondsRemaining change_word Int.intval].
  rewrite Hname, Z.eqb_refl. reflexivity.
Qed.

(** C5. An event type other than the printer-status update makes the
    callback log one warning, of priority LOG_WARNING, carrying the message
    for UnexpectedEvent and the number of the event type, and return. *)
Theorem Callback_logs_unexpected_event
  (eventType : EventType) (data : object) (w : World) :
  eventType <> PrinterStatusUpdate ->
  exists w' : World,
    TerminalUI_Callback eventType data w = Some w'
    /\ logged w'
       = logged w
         ++ [{| log_priority := LOG_WARNING;
                log_errnum := errno w;
                log_format := ERR_MSG UnexpectedEvent;
                log_value := eventType |}].
Proof.
  intros Hne. rewrite Callback_unexpected by exact Hne.
  eexists; split; reflexivity.
Qed.

(** C9. For an event type other than the printer-status update the callback
    writes nothing to the status output stream; it adds exactly one call to
    the logger's record and leaves everything else as it was. *)
Theorem Callback_unexpected_event_frame
  (eventType : EventType) (data : object) (w : World) :
  eventType <> PrinterStatusUpdate ->
  exists (w' : World) (call : LogCall),
    TerminalUI_Callback eventType data w = Some w'
    /\ cout w' = cout w
    /\ errno w' = errno w
    /\ logged w' = logged w ++ [call].
Proof.
  intros Hne. rewrite Callback_unexpected by exact Hne.
  eexists; eexists; repeat split.
Qed.

End TerminalUIFacts.

(** ** Hardware resources *)

Lemma held_true (e : EventType) (hw : Hardware) :
  held e hw = true <-> e ∈ exported hw \/ is_Some (opened hw !! e).
Proof.
  unfold held. rewrite orb_true_iff, !bool_decide_eq_true. reflexivity.
Qed.

Lemma held_false (e : EventType) (hw : Hardware) :
  held e hw = false <-> (e ∉ exported hw) /\ opened hw !! e = None.
Proof.
  unfold held. rewrite orb_false_iff, !bool_decide_eq_false.
  rewrite <- eq_None_not_Some. reflexivity.
Qed.


Lemma Release_not_held (e : EventType) (hw : Hardware) :
  held e (Release e hw) = false.
Proof.
  apply held_false. unfold Release.
  destruct (opened hw !! e) as [fd|] eqn:Hopn.
  - destruct (decide (e ∈ exported (sys_close e fd hw))) as [Hin|Hout]; simpl.
    + split; [|apply lookup_delete_eq].
      apply not_elem_of_difference. right. now apply elem_of_singleton.
    + split; [exact Hout | apply lookup_delete_eq].
  - destruct (decide (e ∈ exported hw)) as [Hin|Hout]; simpl.
    + split; [|exact Hopn].
      apply not_elem_of_difference. right. now apply elem_of_singleton.
    + split; [exact Hout | exact Hopn].
Qed.

Lemma sys_close_held (e e' : EventType) (fd : Handle) (hw : Hardware) :
  held e' (sys_close e fd hw) = true -> held e' hw = true.
Proof.
  rewrite !held_true. simpl. intros [Hin|Hsome]; [left; exact Hin|].
  right. destruct (decide (e = e')) as [->|Hne].
  - rewrite lookup_delete_eq in Hsome. destruct Hsome; discriminate.
  - rewrite lookup_delete_ne in Hsome by exact Hne. exact Hsome.
Qed.

Lemma sys_unexport_held (e e' : EventType) (hw : Hardware) :
  held e' (sys_unexport e hw) = true -> held e' hw = true.
Proof.
  rewrite !held_true. simpl. intros [Hin|Hsome]; [left|right; exact Hsome].
  apply elem_of_difference in Hin as [Hin _]. exact Hin.
Qed.

Lemma Release_held_other (e e' : EventType) (hw : Hardware) :
  held e' (Release e hw) = true -> held e' hw = true /\ e' <> e.
Proof.
  intros Hheld. split.
  - revert Hheld. unfold Release.
    destruct (opened hw !! e) as [fd|] eqn:Hopn.
    + destruct (decide (e ∈ exported (sys_close e fd hw))); intros Hheld.
      * eapply sys_close_held, sys_unexport_held, Hheld.
      * eapply sys_close_held, Hheld.
    + destruct (decide (e ∈ exported hw)); intros Hheld.
      * eapply sys_unexport_held, Hheld.
      * exact Hheld.
  - intros ->. rewrite Release_not_held in Hheld. discriminate.
Qed.


Lemma replay_snoc (calls : list SysCall) (c : SysCall) :
  forall st,
    replay (calls ++ [c]) st
    = match replay calls st with
      | Some st' => sys_step c st'
      | None => None
      end.
Proof.
  induction calls as [|c0 calls IH]; intros st; simpl.
  - destruct (sys_step c st); reflexivity.
  - destruct (sys_step c0 st); [apply IH | reflexivity].
Qed.

Lemma sys_export_well_paired (e : EventType) (hw : Hardware) :
  well_paired hw -> well_paired (sys_export e hw).
Proof.
  unfold well_paired; intros H; simpl. rewrite replay_snoc, H. reflexivity.
Qed.

Lemma sys_set_edge_well_paired (e : EventType) (hw : Hardware) :
  well_paired hw -> well_paired (sys_set_edge e hw).
Proof.
  unfold well_paired; intros H; simpl. rewrite replay_snoc, H. reflexivity.
Qed.

Lemma sys_open_well_paired (e : EventType) (fd : Handle) (hw : Hardware) :
  well_paired hw -> well_paired (sys_open e fd hw).
Proof.
  unfold well_paired; intros H; simpl. rewrite replay_snoc, H. reflexivity.
Qed.

Lemma sys_close_well_paired (e : EventType) (fd fd' : Handle) (hw : Hardware) :
  opened hw !! e = Some fd' -> well_paired hw -> well_paired (sys_close e fd hw).
Proof.
  unfold well_paired; intros Hopn H; simpl. rewrite replay_snoc, H. simpl.
  rewrite Hopn. reflexivity.
Qed.

Lemma sys_unexport_well_paired (e : EventType) (hw : Hardware) :
  e ∈ exported hw -> well_paired hw -> well_paired (sys_unexport e hw).
Proof.
  unfold well_paired; intros Hexp H; simpl. rewrite replay_snoc, H. simpl.
  destruct (decide (e ∈ exported hw)); [reflexivity | contradiction].
Qed.

Lemma Release_well_paired (e : EventType) (hw : Hardware) :
  well_paired hw -> well_paired (Release e hw).
Proof.
  intros H. unfold Release.
  destruct (opened hw !! e) as [fd|] eqn:Hopn.
  - pose proof (sys_close_well_paired e fd fd hw Hopn H) as Hc.
    destruct (decide (e ∈ exported (sys_close e fd hw))) as [Hin|];
      [apply sys_unexport_well_paired; assumption | exact Hc].
  - destruct (decide (e ∈ exported hw));
      [apply sys_unexport_well_paired; assumption | exact H].
Qed.

Lemma Acquire_well_paired (platform : EventType -> AcquireOutcome)
  (e : EventType) (hw : Hardware) :
  well_paired hw -> well_paired (Acquire platform e hw).2.
Proof.
  intros H. unfold Acquire. destruct (platform e); simpl;
    auto using sys_export_well_paired, sys_set_edge_well_paired,
      sys_open_well_paired.
Qed.

Lemma Acquire_held (platform : EventType -> AcquireOutcome)
  (e e' : EventType) (hw : Hardware) :
  held e' (Acquire platform e hw).2 = true -> held e' hw = true \/ e' = e.
Proof.
  rewrite !held_true. unfold Acquire.
  destruct (platform e) as [| | |fd]; simpl; intros [Hin|Hsome];
    try (left; left; assumption); try (left; right; assumption);
    try (apply elem_of_union in Hin as [Hin%elem_of_singleton|Hin];
         [right; assumption | left; left; assumption]).
  destruct (decide (e = e')) as [->|Hne]; [right; reflexivity|].
  rewrite lookup_insert_ne in Hsome by assumption. left; right; assumption.
Qed.

Lemma Acquire_fails (platform : EventType -> AcquireOutcome)
  (e : EventType) (hw : Hardware) :
  (forall fd, platform e <> Acquired fd) -> (Acquire platform e hw).1 = None.
Proof.
  intros Hfail. unfold Acquire.
  destruct (platform e) as [| | |fd]; try reflexivity.
  now destruct (Hfail fd).
Qed.

(** ** Events *)

Lemma Arm_type (platform : EventType -> AcquireOutcome) (ev : Event) (hw : Hardware) :
  ev_type (Arm platform ev hw).1.2 = ev_type ev.
Proof. unfold Arm. destruct (Acquire platform (ev_type ev) hw) as [[fd|] hw1]; reflexivity. Qed.

Lemma Arm_hardware (platform : EventType -> AcquireOutcome) (ev : Event)
  (hw : Hardware) :
  (Arm platform ev hw).2 = (Acquire platform (ev_type ev) hw).2.
Proof. unfold Arm. destruct (Acquire platform (ev_type ev) hw) as [[fd|] hw1]; reflexivity. Qed.

Lemma Arm_fails (platform : EventType -> AcquireOutcome) (ev : Event) (hw : Hardware) :
  (forall fd, platform (ev_type ev) <> Acquired fd) ->
  (Arm platform ev hw).1.1 = false.
Proof.
  intros Hfail. unfold Arm.
  pose proof (Acquire_fails platform (ev_type ev) hw Hfail) as Hacq.
  destruct (Acquire platform (ev_type ev) hw) as [[fd|] hw1];
    [discriminate | reflexivity].
Qed.

Lemma Arm_well_paired (platform : EventType -> AcquireOutcome) (ev : Event)
  (hw : Hardware) :
  well_paired hw -> well_paired (Arm platform ev hw).2.
Proof. rewrite Arm_hardware. apply Acquire_well_paired. Qed.

Lemma Arm_held (platform : EventType -> AcquireOutcome) (ev : Event)
  (hw : Hardware) (e : EventType) :
  held e (Arm platform ev hw).2 = true -> held e hw = true \/ e = ev_type ev.
Proof. rewrite Arm_hardware. apply Acquire_held. Qed.








(** An Arm that fails after the pin was exported leaves the pin exported,
    and the Disarm that follows unexports it. *)
Lemma Disarm_after_partial_Arm (platform : EventType -> AcquireOutcome)
  (ev : Event) (hw : Hardware) :
  held (ev_type ev) hw = false ->
  platform (ev_type ev) = SetEdgeFails \/ platform (ev_type ev) = OpenFails ->
  exists hw' : Hardware,
    Arm platform ev hw = (false, ev, hw')
    /\ held (ev_type ev) hw' = true
    /\ exported (Disarm ev hw').2 = exported hw
    /\ opened (Disarm ev hw').2 = opened hw
    /\ syscalls (Disarm ev hw').2 = syscalls hw' ++ [SysUnexport (ev_type ev)].
Proof.
  intros [Hexp Hopn]%held_false Hpartial.
  set (e := ev_type ev) in *.
  assert (Hback : ({[e]} ∪ exported hw) ∖ {[e]} = exported hw).
  { apply set_eq. intros x.
    rewrite elem_of_difference, elem_of_union, !elem_of_singleton. split.
    - intros [[Hx|Hx] Hn]; [contradiction | exact Hx].
    - intros Hx. split; [right; exact Hx|]. intros ->. contradiction. }
  assert (Hin : e ∈ {[e]} ∪ exported hw)
    by (apply elem_of_union; left; now apply elem_of_singleton).
  assert (Hrel : forall hw1 : Hardware,
             exported hw1 = {[e]} ∪ exported hw -> opened hw1 = opened hw ->
             held e hw1 = true
             /\ exported (Release e hw1) = exported hw
             /\ opened (Release e hw1) = opened hw
             /\ syscalls (Release e hw1) = syscalls hw1 ++ [SysUnexport e]).
  { intros hw1 He Ho. split; [apply held_true; left; now rewrite He|].
    unfold Release. rewrite Ho, Hopn.
    destruct (decide (e ∈ exported hw1)) as [_|Hout];
      [|exfalso; apply Hout; now rewrite He].
    simpl. rewrite He, Ho. repeat split. exact Hback. }
  unfold Arm, Acquire, Disarm. fold e.
  destruct Hpartial as [-> | ->]; eexists; (split; [reflexivity|]);
    cbn [snd]; apply Hrel; reflexivity.
Qed.

(** After an Arm that failed partway no Disarm, however it is written, can
    both change nothing and leave nothing held. *)
Lemma partial_Arm_excludes_noop (disarm : Event -> Hardware -> Event * Hardware)
  (platform : EventType -> AcquireOutcome) (ev : Event) (hw : Hardware) :
  held (ev_type ev) hw = false ->
  platform (ev_type ev) = SetEdgeFails \/ platform (ev_type ev) = OpenFails ->
  ~ (disarm ev (Arm platform ev hw).2 = (ev, (Arm platform ev hw).2)
     /\ held (ev_type ev) (disarm ev (Arm platform ev hw).2).2 = false).
Proof.
  intros Hfree Hpartial [Hnoop Hleak].
  destruct (Disarm_after_partial_Arm platform ev hw Hfree Hpartial)
    as (hw' & HArm & Hheld & _).
  rewrite HArm in *. cbn [snd] in *. rewrite Hnoop in Hleak.
  cbn [snd] in Hleak. congruence.
Qed.


(** ** Startup *)

Section Startup.

Variable platform : EventType -> AcquireOutcome.

Ltac step_arm_all ev evs hw IH :=
  cbn [arm_all];
  destruct (Arm platform ev hw) as [[ok ev1] hw1] eqn:HA;
  specialize (IH hw1);
  destruct (arm_all platform evs hw1) as [[[failed evs1] hw2] skipped] eqn:HR;
  cbn [fst snd] in IH.

Lemma arm_all_types (evs : list Event) :
  forall hw, map ev_type (arm_all platform evs hw).1.1.2 = map ev_type evs.
Proof.
  induction evs as [|ev evs IH]; intros hw; [reflexivity|].
  step_arm_all ev evs hw IH.
  pose proof (Arm_type platform ev hw) as Ht. rewrite HA in Ht. simpl in Ht.
  destruct ok; [|destruct (ev_required ev)]; simpl; now rewrite Ht, IH.
Qed.

Lemma arm_all_failed (evs : list Event) :
  forall hw,
    (exists ev, In ev evs /\ ev_required ev = true
                /\ forall fd, platform (ev_type ev) <> Acquired fd) ->
    (arm_all platform evs hw).1.1.1 <> [].
Proof.
  induction evs as [|ev evs IH]; intros hw (ev0 & Hin & Hreq & Hfail);
    [destruct Hin|].
  step_arm_all ev evs hw IH.
  destruct Hin as [->|Hin].
  - pose proof (Arm_fails platform ev0 hw Hfail) as Hf. rewrite HA in Hf.
    simpl in Hf. subst ok. rewrite Hreq. simpl. discriminate.
  - assert (Hrest : failed <> []) by (apply IH; exists ev0; auto).
    destruct ok; [|destruct (ev_required ev)]; simpl;
      [exact Hrest | discriminate | exact Hrest].
Qed.

Lemma arm_all_held (evs : list Event) (e : EventType) :
  forall hw,
    held e (arm_all platform evs hw).1.2 = true ->
    held e hw = true \/ In e (map ev_type evs).
Proof.
  induction evs as [|ev evs IH]; intros hw; [simpl; auto|].
  step_arm_all ev evs hw IH.
  pose proof (Arm_held platform ev hw e) as Hh. rewrite HA in Hh. simpl in Hh.
  intros Hheld.
  assert (Hheld' : held e hw2 = true)
    by (destruct ok; [|destruct (ev_required ev)]; exact Hheld).
  destruct (IH Hheld') as [H1|Hin]; [|right; right; exact Hin].
  destruct (Hh H1) as [H0 | ->]; [left; exact H0 | right; left; reflexivity].
Qed.

Lemma arm_all_well_paired (evs : list Event) :
  forall hw, well_paired hw -> well_paired (arm_all platform evs hw).1.2.
Proof.
  induction evs as [|ev evs IH]; intros hw Hwp; [exact Hwp|].
  step_arm_all ev evs hw IH.
  pose proof (Arm_well_paired platform ev hw Hwp) as Hw1. rewrite HA in Hw1.
  destruct ok; [|destruct (ev_required ev)]; simpl; apply IH, Hw1.
Qed.

Lemma Arm_succeeds (ev : Event) (hw : Hardware) (fd : Handle) :
  platform (ev_type ev) = Acquired fd ->
  (Arm platform ev hw).1 = (true, set_handle (Some fd) ev).
Proof. intros Hacq. unfold Arm, Acquire. rewrite Hacq. reflexivity. Qed.

Lemma arm_all_succeeds (evs : list Event) :
  forall hw,
    (forall ev, In ev evs -> exists fd, platform (ev_type ev) = Acquired fd) ->
    (arm_all platform evs hw).1.1.1 = []
    /\ (arm_all platform evs hw).2 = []
    /\ forall ev', In ev' (arm_all platform evs hw).1.1.2 -> is_Some (ev_handle ev').
Proof.
  induction evs as [|ev evs IH]; intros hw Hall;
    [repeat split; intros ev' []|].
  destruct (Hall ev (or_introl eq_refl)) as [fd Hfd].
  pose proof (Arm_succeeds ev hw fd Hfd) as Hok.
  step_arm_all ev evs hw IH.
  simpl in Hok. injection Hok as -> ->.
  destruct IH as (Hfailed & Hskipped & Hhandles);
    [intros ev' Hin; apply Hall; now right|].
  simpl. repeat split; [exact Hfailed | exact Hskipped|].
  intros ev' [<-|Hin]; [eexists; reflexivity | apply Hhandles, Hin].
Qed.

End Startup.

(** When every configured resource can be acquired, Begin starts the loop
    with every Event armed. *)
Lemma Begin_starts (platform : EventType -> AcquireOutcome) (h : Handler) :
  phase h = Configured ->
  (forall ev, In ev (events h) -> exists fd, platform (ev_type ev) = Acquired fd) ->
  exists h',
    Begin platform h = (Started, h')
    /\ phase h' = Running
    /\ registry h' = registry h
    /\ forall ev', In ev' (events h') -> is_Some (ev_handle ev').
Proof.
  intros Hphase Hall. unfold Begin. rewrite Hphase.
  destruct (arm_all_succeeds platform (events h) (hardware h) Hall)
    as (Hfailed & _ & Hhandles).
  destruct (arm_all platform (events h) (hardware h))
    as [[[failed evs] hw] skipped].
  cbn [fst snd] in *. subst failed.
  eexists. split; [reflexivity|]. repeat split. exact Hhandles.
Qed.

Lemma disarm_all_types (evs : list Event) (hw : Hardware) :
  map ev_type (disarm_all evs hw).1 = map ev_type evs.
Proof.
  induction evs as [|ev evs IH]; [reflexivity|].
  cbn [disarm_all]. destruct (disarm_all evs hw) as [evs' hw'].
  simpl in *. now rewrite IH.
Qed.

Lemma disarm_all_handles (evs : list Event) (hw : Hardware) (ev' : Event) :
  In ev' (disarm_all evs hw).1 -> ev_handle ev' = None.
Proof.
  induction evs as [|ev evs IH]; [intros []|].
  cbn [disarm_all]. destruct (disarm_all evs hw) as [evs' hw'].
  simpl in *. intros [<-|Hin]; [reflexivity | apply IH, Hin].
Qed.

Lemma disarm_all_held (evs : list Event) (hw : Hardware) (e : EventType) :
  held e (disarm_all evs hw).2 = true ->
  held e hw = true /\ ~ In e (map ev_type evs).
Proof.
  induction evs as [|ev evs IH]; [simpl; auto|].
  cbn [disarm_all]. destruct (disarm_all evs hw) as [evs' hw'].
  simpl in *. intros [Hheld Hne]%Release_held_other.
  destruct (IH Hheld) as [H0 Hnotin]. split; [exact H0|].
  intros [Heq|Hin]; [apply Hne; symmetry; exact Heq | apply Hnotin, Hin].
Qed.

Lemma disarm_all_well_paired (evs : list Event) (hw : Hardware) :
  well_paired hw -> well_paired (disarm_all evs hw).2.
Proof.
  intros Hwp. induction evs as [|ev evs IH]; [exact Hwp|].
  cbn [disarm_all]. destruct (disarm_all evs hw) as [evs' hw'].
  simpl in *. apply Release_well_paired, IH.
Qed.

(** C7. When a required Event cannot be armed, Begin fails with
    StartupFailed, the handler stays Configured and no callback has been
    invoked, every Event is left without a handle, and nothing acquired for
    a configured EventType is still held; the releases that undo the
    arming are correctly paired with the acquisitions. *)
Theorem Begin_startup_failure
  (platform : EventType -> AcquireOutcome) (h : Handler) :
  phase h = Configured ->
  (exists ev, In ev (events h) /\ ev_required ev = true
              /\ forall fd, platform (ev_type ev) <> Acquired fd) ->
  exists (failed : list EventType) (h' : Handler),
    Begin platform h = (StartupFailed failed, h')
    /\ failed <> []
    /\ phase h' = Configured
    /\ delivered h' = delivered h
    /\ registry h' = registry h
    /\ map ev_type (events h') = map ev_type (events h)
    /\ (forall ev', In ev' (events h') ->
          ev_handle ev' = None /\ held (ev_type ev') (hardware h') = false)
    /\ (forall e, held e (hardware h') = true -> held e (hardware h) = true)
    /\ (well_paired (hardware h) -> well_paired (hardware h')).
Proof.
  intros Hphase Hreq. unfold Begin. rewrite Hphase.
  pose proof (arm_all_failed platform (events h) (hardware h) Hreq) as Hfailed.
  pose proof (arm_all_types platform (events h) (hardware h)) as Htypes.
  pose proof (fun e => arm_all_held platform (events h) e (hardware h)) as Hheld.
  pose proof (arm_all_well_paired platform (events h) (hardware h)) as Hwp.
  destruct (arm_all platform (events h) (hardware h))
    as [[[failed evs] hw] skipped].
  cbn [fst snd] in *.
  destruct failed as [|e0 failed]; [contradiction|].
  pose proof (disarm_all_types evs hw) as Htypes'.
  pose proof (disarm_all_handles evs hw) as Hhandles.
  pose proof (fun e => disarm_all_held evs hw e) as Hheld'.
  pose proof (disarm_all_well_paired evs hw) as Hwp'.
  destruct (disarm_all evs hw) as [evs' hw'].
  cbn [fst snd] in *.
  exists (e0 :: failed). eexists. split; [reflexivity|]. cbn.
  split; [discriminate|].
  split; [reflexivity|]. split; [reflexivity|]. split; [reflexivity|].
  split; [now rewrite Htypes', Htypes|].
  split; [|split].
  - intros ev' Hin. split; [apply Hhandles, Hin|].
    destruct (held (ev_type ev') hw') eqn:Hh; [|reflexivity].
    destruct (Hheld' _ Hh) as [_ Hnotin]. exfalso. apply Hnotin.
    rewrite <- Htypes'. apply in_map, Hin.
  - intros e Hh. destruct (Hheld' _ Hh) as [H1 Hnotin].
    destruct (Hheld _ H1) as [H0|Hin]; [exact H0|].
    exfalso. apply Hnotin. rewrite Htypes. exact Hin.
  - intros H0. apply Hwp', Hwp, H0.
Qed.

(** ** Dispatch *)





(** Only Subscribe changes the registry. *)
Lemma registry_SetResource (e : EventType) (required : bool) (h : Handler) :
  registry (SetResource e required h) = registry h.
Proof. unfold SetResource. destruct (phase h); reflexivity. Qed.

Lemma registry_Begin (platform : EventType -> AcquireOutcome) (h : Handler) :
  registry (Begin platform h).2 = registry h.
Proof.
  unfold Begin. destruct (phase h); try reflexivity.
  destruct (arm_all platform (events h) (hardware h))
    as [[[failed evs] hw] skipped].
  destruct failed; [reflexivity|].
  destruct (disarm_all evs hw); reflexivity.
Qed.




(** ** The properties on concrete runs *)

(** Against C1 as worded: without sub-state and progress the state name is
    still followed by a space, which the wording leaves no room for. *)
Lemma Callback_renders_status_counterexample :
  Sample.TerminalUI_Callback Sample.PrinterStatusUpdate
    (ObjPrinterStatus Sample.idle_status) Sample.fresh
  <> Some (write_cout
             (spec_status_line Sample.NoUISubState Sample.STATE_NAME
                Sample.SUBSTATE_NAME Sample.idle_status)
             Sample.fresh).
Proof. vm_compute. intros H. discriminate H. Qed.

Lemma Callback_progress_fragment_witness :
  Sample.TerminalUI_Callback Sample.PrinterStatusUpdate
    (ObjPrinterStatus Sample.idle_status) Sample.fresh
  = Some {| cout := "Printing " +:+ endl; logged := []; errno := 0 |}
  /\ Sample.TerminalUI_Callback Sample.PrinterStatusUpdate
       (ObjPrinterStatus Sample.progress_status) Sample.fresh
     = Some {| cout := "Printing 3/10, 42s remaining" +:+ endl;
               logged := []; errno := 0 |}.
Proof.
  destruct (Callback_progress_fragment Sample.PrinterStatusUpdate
              Sample.NoUISubState Sample.STATE_NAME Sample.SUBSTATE_NAME
              Sample.UnexpectedEvent Sample.ERR_MSG) as [Hidle Hprogress].
  split.
  - exact (Hidle Sample.idle_status Sample.fresh eq_refl).
  - exact (Hprogress Sample.progress_status Sample.fresh eq_refl eq_refl eq_refl).
Defined.

(** Against C4 as worded: the line is not "entering Printing" directly
    followed by "1/5, 120s remaining". *)
Lemma Callback_entering_Printing_counterexample :
  Sample.TerminalUI_Callback Sample.PrinterStatusUpdate
    (ObjPrinterStatus Sample.entering_status) Sample.fresh
  <> Some (write_cout ("entering Printing" +:+ "1/5, 120s remaining" +:+ endl)
             Sample.fresh).
Proof. vm_compute. intros H. discriminate H. Qed.

Lemma Callback_entering_Printing_witness :
  Sample.TerminalUI_Callback Sample.PrinterStatusUpdate
    (ObjPrinterStatus Sample.entering_status) Sample.fresh
  = Some (write_cout ("entering Printing 1/5, 120s remaining" +:+ endl) Sample.fresh)
  /\ line_breaks ("entering Printing 1/5, 120s remaining" +:+ endl) = 1%nat.
Proof.
  exact (Callback_entering_Printing Sample.PrinterStatusUpdate
           Sample.NoUISubState Sample.STATE_NAME Sample.SUBSTATE_NAME
           Sample.UnexpectedEvent Sample.ERR_MSG Sample.Printing Sample.fresh
           eq_refl).
Defined.

Lemma Callback_logs_unexpected_event_witness :
  exists w' : World,
    Sample.TerminalUI_Callback Sample.DoorInterrupt (ObjOther [1]) Sample.fresh
    = Some w'
    /\ logged w'
       = [{| log_priority := LOG_WARNING;
             log_errnum := 0;
             log_format := "Unexpected event type: %d";
             log_value := 3 |}].
Proof.
  apply (Callback_logs_unexpected_event Sample.PrinterStatusUpdate
           Sample.NoUISubState Sample.STATE_NAME Sample.SUBSTATE_NAME
           Sample.UnexpectedEvent Sample.ERR_MSG Sample.DoorInterrupt
           (ObjOther [1]) Sample.fresh).
  discriminate.
Defined.

Lemma Callback_unexpected_event_frame_witness :
  exists (w' : World) (call : LogCall),
    Sample.TerminalUI_Callback Sample.DoorInterrupt (ObjOther [1]) Sample.fresh
    = Some w'
    /\ cout w' = EmptyString
    /\ errno w' = 0
    /\ logged w' = [call].
Proof.
  apply (Callback_unexpected_event_frame Sample.PrinterStatusUpdate
           Sample.NoUISubState Sample.STATE_NAME Sample.SUBSTATE_NAME
           Sample.UnexpectedEvent Sample.ERR_MSG Sample.DoorInterrupt
           (ObjOther [1]) Sample.fresh).
  discriminate.
Defined.

Lemma Callback_transition_word_witness :
  exists w_entering w_leaving w_steady : World,
    (Sample.TerminalUI_Callback Sample.PrinterStatusUpdate
       (ObjPrinterStatus
          (mkPrinterStatus Sample.Printing Sample.NoUISubState Entering
             (Int.lit 1) (Int.lit 5) (Int.lit 120))) Sample.fresh
     = Some w_entering
     /\ cout w_entering = "entering Printing 1/5, 120s remaining" +:+ endl)
    /\ (Sample.TerminalUI_Callback Sample.PrinterStatusUpdate
          (ObjPrinterStatus
             (mkPrinterStatus Sample.Printing Sample.NoUISubState Leaving
                (Int.lit 1) (Int.lit 5) (Int.lit 120))) Sample.fresh
        = Some w_leaving
        /\ cout w_leaving = "leaving Printing 1/5, 120s remaining" +:+ endl)
    /\ (Sample.TerminalUI_Callback Sample.PrinterStatusUpdate
          (ObjPrinterStatus
             (mkPrinterStatus Sample.Printing Sample.NoUISubState NoChange
                (Int.lit 1) (Int.lit 5) (Int.lit 120))) Sample.fresh
        = Some w_steady
        /\ cout w_steady = "Printing 1/5, 120s remaining" +:+ endl).
Proof.
  exact (Callback_transition_word Sample.PrinterStatusUpdate
           Sample.NoUISubState Sample.STATE_NAME Sample.SUBSTATE_NAME
           Sample.UnexpectedEvent Sample.ERR_MSG Sample.Printing
           Sample.NoUISubState (Int.lit 1) (Int.lit 5) (Int.lit 120)
           Sample.fresh).
Defined.


Lemma Begin_startup_failure_witness :
  exists (failed : list EventType) (h' : Handler),
    Begin Scenario.broken_door Scenario.configured = (StartupFailed failed, h')
    /\ failed <> []
    /\ phase h' = Configured
    /\ delivered h' = []
    /\ (forall ev', In ev' (events h') ->
          ev_handle ev' = None /\ held (ev_type ev') (hardware h') = false).
Proof.
  destruct (Begin_startup_failure Scenario.broken_door Scenario.configured)
    as (failed & h' & HB & Hne & Hph & Hdl & _ & _ & Hfree & _).
  - vm_compute; reflexivity.
  - exists Scenario.door_event. split; [right; left; reflexivity|].
    split; [reflexivity|]. intros fd. discriminate.
  - exists failed, h'. repeat split; try assumption; apply Hfree; assumption.
Defined.



(** * Further properties of the status reporter *)

(** ** Line breaks and numerals *)

Lemma append_inv_l (s t u : string) : s +:+ t = s +:+ u -> t = u.
Proof.
  induction s as [|c s IH]; [intros H; exact H|].
  rewrite !append_cons. intros H. injection H as H. apply IH, H.
Qed.

Lemma line_breaks_app (s t : string) :
  line_breaks (s +:+ t) = (line_breaks s + line_breaks t)%nat.
Proof.
  induction s as [|c s IH]; [reflexivity|].
  rewrite append_cons. cbn [line_breaks].
  destruct (Ascii.eqb c (ascii_of_nat 10)); cbn [Nat.add]; now rewrite IH.
Qed.

Lemma digit_char_code (d : Z) :
  0 <= d < 10 -> nat_of_ascii (Printf.digit_char d) = (48 + Z.to_nat d)%nat.
Proof.
  intros Hd. unfold Printf.digit_char. apply nat_ascii_embedding. lia.
Qed.

Lemma digit_char_numeral (d : Z) :
  0 <= d < 10 -> numeral_char (Printf.digit_char d) = true.
Proof.
  intros Hd. unfold numeral_char. rewrite digit_char_code by exact Hd.
  apply orb_true_iff. right. apply andb_true_iff.
  split; apply Nat.leb_le; lia.
Qed.

Lemma numeral_char_not_endl (c : ascii) :
  numeral_char c = true -> Ascii.eqb c (ascii_of_nat 10) = false.
Proof.
  intros Hc. apply Ascii.eqb_neq. intros ->. discriminate Hc.
Qed.

Lemma numeral_no_line_break (s : string) :
  numeral s = true -> line_breaks s = 0%nat.
Proof.
  induction s as [|c s IH]; [reflexivity|].
  cbn [numeral line_breaks]. intros [Hc Hs]%andb_true_iff.
  rewrite numeral_char_not_endl by exact Hc. apply IH, Hs.
Qed.

Lemma decimal_digits_numeral (fuel : nat) :
  forall (n : Z) (acc : string),
    numeral acc = true -> numeral (Printf.decimal_digits fuel n acc) = true.
Proof.
  induction fuel as [|fuel IH]; intros n acc Hacc; [exact Hacc|].
  cbn [Printf.decimal_digits].
  assert (Hd : numeral (String (Printf.digit_char (n mod 10)) acc) = true).
  { cbn [numeral]. rewrite digit_char_numeral, Hacc; [reflexivity|].
    apply Z.mod_pos_bound. lia. }
  destruct (n / 10 =? 0); [exact Hd | apply IH, Hd].
Qed.

(** What [%d] prints consists of a sign and digits only. *)
Lemma string_of_int_numeral (z : Z) : numeral (Printf.string_of_int z) = true.
Proof.
  unfold Printf.string_of_int. destruct (z <? 0).
  - cbn [numeral]. now rewrite decimal_digits_numeral.
  - now apply decimal_digits_numeral.
Qed.

Lemma progress_text_no_line_break (cur num secs : Z) :
  line_breaks (progress_text cur num secs) = 0%nat.
Proof.
  unfold progress_text. rewrite !line_breaks_app.
  rewrite (numeral_no_line_break _ (string_of_int_numeral cur)).
  rewrite (numeral_no_line_break _ (string_of_int_numeral num)).
  rewrite (numeral_no_line_break _ (string_of_int_numeral secs)).
  reflexivity.
Qed.

Lemma progress_text_length (cur num secs : int) :
  (String.length
     (progress_text (Int.intval cur) (Int.intval num) (Int.intval secs)) <= 47)%nat.
Proof.
  pose proof (PrintfFacts.string_of_int_length cur) as H1.
  pose proof (PrintfFacts.string_of_int_length num) as H2.
  pose proof (PrintfFacts.string_of_int_length secs) as H3.
  unfold progress_text. rewrite !append_length. cbn [String.length]. lia.
Qed.

(** X3. Whatever the three progress values are, the text formatted into
    [statusMsg] has at most 47 characters, so the 256-byte buffer is never
    overrun; 47 is reached when the three values are the smallest int. *)
Theorem statusMsg_never_overruns :
  (forall cur num secs : int,
      exists msg : string,
        Printf.sprintf statusMsg_size PRINTER_STATUS_FORMAT
          [Int.intval cur; Int.intval num; Int.intval secs] = Some msg
        /\ (String.length msg <= 47)%nat
        /\ (String.length msg + 1 <= statusMsg_size)%nat)
  /\ String.length
       (progress_text Int.min_signed Int.min_signed Int.min_signed) = 47%nat.
Proof.
  split; [|reflexivity].
  intros cur num secs. eexists. split; [apply sprintf_status|].
  pose proof (progress_text_length cur num secs) as Hlen.
  unfold statusMsg_size. split; lia.
Qed.

Lemma append_nil_l (s : string) : EmptyString +:+ s = s.
Proof. reflexivity. Qed.

(** Two texts that start with a numeral followed by the same non-numeral
    character split in the same way. *)
Lemma numeral_split (c : ascii) (s : string) :
  forall (s' t t' : string),
    numeral s = true -> numeral s' = true -> numeral_char c = false ->
    s +:+ String c t = s' +:+ String c t' -> s = s' /\ t = t'.
Proof.
  induction s as [|x s IH]; intros [|x' s'] t t' Hs Hs' Hc Heq.
  - rewrite !append_nil_l in Heq. injection Heq as Ht. now split.
  - rewrite append_nil_l, append_cons in Heq. injection Heq as Hx _.
    cbn [numeral] in Hs'. apply andb_true_iff in Hs' as [Hx' _].
    congruence.
  - rewrite append_nil_l, append_cons in Heq. injection Heq as Hx _.
    cbn [numeral] in Hs. apply andb_true_iff in Hs as [Hx' _].
    congruence.
  - rewrite !append_cons in Heq. injection Heq as Hx Hrest.
    cbn [numeral] in Hs, Hs'.
    apply andb_true_iff in Hs as [_ Hs]. apply andb_true_iff in Hs' as [_ Hs'].
    destruct (IH s' t t' Hs Hs' Hc Hrest) as [-> ->]. now subst x'.
Qed.

Lemma string_of_int_inj (a b : Z) :
  Printf.string_of_int a = Printf.string_of_int b -> a = b.
Proof.
  intros Heq. rewrite <- (PrintfFacts.parse_string_of_int a), Heq.
  apply PrintfFacts.parse_string_of_int.
Qed.

(** The first character [%d] prints is a sign or a digit. *)
Lemma string_of_int_head (z : Z) :
  exists c s, Printf.string_of_int z = String c s /\ numeral_char c = true.
Proof.
  pose proof (string_of_int_numeral z) as Hnum.
  unfold Printf.string_of_int in *. destruct (z <? 0).
  - eexists _, _. split; [reflexivity | reflexivity].
  - unfold Printf.digits_fuel in *.
    destruct (PrintfFacts.decimal_digits_head (Z.to_nat (Z.log2 z)) z EmptyString)
      as (d & s & Hd & Heq).
    rewrite Heq. eexists _, _. split; [reflexivity|].
    apply digit_char_numeral, Hd.
Qed.

(** The progress text can be read back: it determines the three values,
    whatever text follows it. *)
Lemma progress_text_inj (a b c a' b' c' : Z) (t t' : string) :
  progress_text a b c +:+ t = progress_text a' b' c' +:+ t' ->
  a = a' /\ b = b' /\ c = c'.
Proof.
  unfold progress_text. rewrite !append_assoc.
  rewrite !(append_cons _ _ _), !append_nil_l.
  intros Heq.
  apply numeral_split in Heq as [Ha Heq];
    [|apply string_of_int_numeral..|reflexivity].
  apply numeral_split in Heq as [Hb Heq];
    [|apply string_of_int_numeral..|reflexivity].
  injection Heq as Heq.
  apply numeral_split in Heq as [Hc _];
    [|apply string_of_int_numeral..|reflexivity].
  auto using string_of_int_inj.
Qed.

Lemma progress_text_not_endl (a b c : Z) (t : string) :
  progress_text a b c +:+ t <> endl.
Proof.
  unfold progress_text. rewrite !append_assoc.
  destruct (string_of_int_head a) as (x & s & -> & Hx).
  rewrite append_cons. unfold endl. intros Heq. injection Heq as Hx' _.
  apply numeral_char_not_endl in Hx. subst x. discriminate Hx.
Qed.

(** ** What an invocation does to the output and to the log *)

Section TerminalUIMore.

Variable PrinterStatusUpdate : EventType.
Variable NoUISubState : UISubState.
Variable STATE_NAME : PrintEngineState -> string.
Variable SUBSTATE_NAME : UISubState -> string.
Variable UnexpectedEvent : Z.
Variable ERR_MSG : Z -> string.

Local Abbreviation TerminalUI_Callback :=
  (Callback PrinterStatusUpdate NoUISubState STATE_NAME SUBSTATE_NAME
     UnexpectedEvent ERR_MSG).
Local Abbreviation the_status_line := (status_line NoUISubState STATE_NAME SUBSTATE_NAME).
Local Abbreviation the_substate_name := (substate_name NoUISubState SUBSTATE_NAME).

Lemma status_line_length (ps : PrinterStatus) :
  (2 <= String.length (the_status_line ps))%nat.
Proof.
  unfold status_line, line_tail. rewrite !append_length.
  unfold endl. cbn [String.length]. lia.
Qed.

(** X1. An invocation that returns either added text to the status output
    (at least a space and a line break, after what was there) and left the
    log alone, or added one call to the log and left the output alone; it
    does never both, and never rewrites earlier output or log entries. *)
Theorem Callback_writes_or_logs
  (eventType : EventType) (data : object) (w w' : World) :
  TerminalUI_Callback eventType data w = Some w' ->
  (exists text : string,
      (2 <= String.length text)%nat
      /\ cout w' = cout w +:+ text
      /\ logged w' = logged w)
  \/ (exists call : LogCall,
         cout w' = cout w
         /\ logged w' = logged w ++ [call]).
Proof.
  intros Hrun. destruct (Z.eq_dec eventType PrinterStatusUpdate) as [->|Hne].
  - destruct data as [ps|raw].
    + rewrite Callback_status in Hrun. injection Hrun as <-.
      left. exists (the_status_line ps).
      split; [apply status_line_length|]. split; reflexivity.
    + unfold Callback in Hrun. rewrite Z.eqb_refl in Hrun. discriminate Hrun.
  - rewrite Callback_unexpected in Hrun by exact Hne. injection Hrun as <-.
    right. eexists. split; reflexivity.
Qed.

(** X2. For a printer-status update the status output gains the transition
    word, the state name, a space, the sub-state name and the progress
    fragment, and then the line break as its last character; before that
    last character the added text has only the line breaks that the state
    name and the sub-state name themselves contain, so with names free of
    line breaks one update is exactly one line. *)
Theorem Callback_writes_one_line (ps : PrinterStatus) (w : World) :
  let body :=
    change_word (_change ps) +:+ STATE_NAME (_state ps) +:+ " "
    +:+ the_substate_name (_UISubState ps) +:+ progress_fragment ps in
  exists w' : World,
    TerminalUI_Callback PrinterStatusUpdate (ObjPrinterStatus ps) w = Some w'
    /\ cout w' = (cout w +:+ body) +:+ endl
    /\ line_breaks body
       = (line_breaks (STATE_NAME (_state ps))
          + line_breaks (the_substate_name (_UISubState ps)))%nat.
Proof.
  intros body. rewrite Callback_status. eexists. split; [reflexivity|]. split.
  - cbn [cout write_cout]. unfold body, status_line, line_tail.
    now rewrite !append_assoc.
  - unfold body. rewrite !line_breaks_app.
    assert (Hword : line_breaks (change_word (_change ps)) = 0%nat)
      by (destruct (_change ps); reflexivity).
    assert (Hfrag : line_breaks (progress_fragment ps) = 0%nat).
    { unfold progress_fragment.
      destruct (Int.intval (_currentLayer ps) =? 0);
        [reflexivity | apply progress_text_no_line_break]. }
    rewrite Hword, Hfrag. cbn [line_breaks]. simpl. lia.
Qed.

(** X4. For two payloads with the same state, sub-state and transition
    marker, the callback produces the same result exactly when the current
    layers are equal and, unless that layer is 0, the numbers of layers and
    the seconds remaining are equal too: the line shows every progress
    value of a running print, and none of an idle one. *)
Theorem status_line_shows_progress (ps1 ps2 : PrinterStatus) (w : World) :
  _state ps1 = _state ps2 ->
  _UISubState ps1 = _UISubState ps2 ->
  _change ps1 = _change ps2 ->
  (TerminalUI_Callback PrinterStatusUpdate (ObjPrinterStatus ps1) w
   = TerminalUI_Callback PrinterStatusUpdate (ObjPrinterStatus ps2) w
   <-> Int.intval (_currentLayer ps1) = Int.intval (_currentLayer ps2)
       /\ (Int.intval (_currentLayer ps1) <> 0 ->
           Int.intval (_numLayers ps1) = Int.intval (_numLayers ps2)
           /\ Int.intval (_estimatedSecondsRemaining ps1)
              = Int.intval (_estimatedSecondsRemaining ps2))).
Proof.
  intros Hst Hsub Hch. rewrite !Callback_status.
  unfold status_line, line_tail, progress_fragment.
  rewrite <- Hst, <- Hsub, <- Hch. split.
  - intros Heq. injection Heq as Heq.
    do 5 apply append_inv_l in Heq.
    destruct (Int.intval (_currentLayer ps1) =? 0) eqn:H1;
      destruct (Int.intval (_currentLayer ps2) =? 0) eqn:H2.
    + apply Z.eqb_eq in H1, H2. split; [congruence | intros Hn; contradiction].
    + rewrite append_nil_l in Heq. symmetry in Heq.
      now apply progress_text_not_endl in Heq.
    + rewrite append_nil_l in Heq. now apply progress_text_not_endl in Heq.
    + apply progress_text_inj in Heq as (Hc & Hn & Hs). auto.
  - intros [Hcur Hrest]. rewrite <- Hcur.
    destruct (Int.intval (_currentLayer ps1) =? 0) eqn:H1; [reflexivity|].
    apply Z.eqb_neq in H1. destruct (Hrest H1) as [-> ->]. reflexivity.
Qed.

Local Abbreviation the_Callback_each :=
  (Callback_each PrinterStatusUpdate NoUISubState STATE_NAME SUBSTATE_NAME
     UnexpectedEvent ERR_MSG).
Local Abbreviation the_status_lines :=
  (status_lines PrinterStatusUpdate NoUISubState STATE_NAME SUBSTATE_NAME).
Local Abbreviation the_unexpected_events :=
  (unexpected_events PrinterStatusUpdate).

(** X5. Invoked on a sequence of events in which every printer-status
    update carries a printer status, the callback adds to the status output
    the status lines of the updates, in order and nothing else, and to the
    log one call per other event, in order and nothing else, each of
    priority LOG_WARNING with the message for UnexpectedEvent and the number
    of that event's type. *)
Theorem Callback_each_accumulates (calls : list (EventType * object)) :
  forall w : World,
    (forall e d, In (e, d) calls -> e = PrinterStatusUpdate ->
                 exists ps, d = ObjPrinterStatus ps) ->
    exists (w' : World) (added : list LogCall),
      the_Callback_each calls w = Some w'
      /\ cout w' = cout w +:+ the_status_lines calls
      /\ logged w' = logged w ++ added
      /\ map log_value added = the_unexpected_events calls
      /\ (forall call, In call added ->
            log_priority call = LOG_WARNING
            /\ log_format call = ERR_MSG UnexpectedEvent).
Proof.
  induction calls as [|[e d] calls IH]; intros w Hwf.
  - exists w, []. cbn [Callback_each status_lines unexpected_events].
    rewrite append_nil_r, app_nil_r.
    do 4 (split; [reflexivity|]). intros call [].
  - cbn [Callback_each status_lines unexpected_events].
    assert (Hrest : forall e' d', In (e', d') calls -> e' = PrinterStatusUpdate ->
                                  exists ps, d' = ObjPrinterStatus ps)
      by (intros e' d' Hin; apply Hwf; now right).
    destruct (Z.eq_dec e PrinterStatusUpdate) as [->|Hne].
    + destruct (Hwf PrinterStatusUpdate d (or_introl eq_refl) eq_refl) as [ps ->].
      rewrite Callback_status. cbn [mbind option_bind].
      destruct (IH (write_cout (the_status_line ps) w) Hrest)
        as (w' & added & Hrun & Hcout & Hlog & Hvalues & Hkind).
      exists w', added. rewrite Z.eqb_refl.
      cbn [as_PrinterStatus write_cout cout logged app] in *.
      split; [exact Hrun|]. split; [now rewrite Hcout, append_assoc|].
      split; [exact Hlog|]. split; [exact Hvalues | exact Hkind].
    + rewrite Callback_unexpected by exact Hne. cbn [mbind option_bind].
      destruct (IH (LogError LOG_WARNING (errno w) (ERR_MSG UnexpectedEvent) e w)
                  Hrest)
        as (w' & added & Hrun & Hcout & Hlog & Hvalues & Hkind).
      exists w', (mkLogCall LOG_WARNING (errno w) (ERR_MSG UnexpectedEvent) e :: added).
      apply Z.eqb_neq in Hne. rewrite Hne.
      cbn [LogError cout logged] in *.
      split; [exact Hrun|]. split; [now rewrite Hcout, append_nil_l|].
      split; [now rewrite Hlog, <- app_assoc|].
      split; [cbn [map log_value app]; now rewrite Hvalues|].
      intros call [<-|Hin]; [split; reflexivity | apply Hkind, Hin].
Qed.

End TerminalUIMore.

(** ** The further properties on concrete runs *)

Lemma Callback_writes_or_logs_witness :
  (exists text : string,
      (2 <= String.length text)%nat
      /\ cout SampleRuns.after_entering = cout Sample.fresh +:+ text
      /\ logged SampleRuns.after_entering = logged Sample.fresh)
  \/ (exists call : LogCall,
         cout SampleRuns.after_entering = cout Sample.fresh
         /\ logged SampleRuns.after_entering = logged Sample.fresh ++ [call]).
Proof.
  apply (Callback_writes_or_logs Sample.PrinterStatusUpdate Sample.NoUISubState
           Sample.STATE_NAME Sample.SUBSTATE_NAME Sample.UnexpectedEvent
           Sample.ERR_MSG Sample.PrinterStatusUpdate
           (ObjPrinterStatus Sample.entering_status) Sample.fresh
           SampleRuns.after_entering).
  vm_compute; reflexivity.
Defined.

Lemma Callback_writes_one_line_witness :
  exists w' : World,
    Sample.TerminalUI_Callback Sample.PrinterStatusUpdate
      (ObjPrinterStatus Sample.entering_status) Sample.fresh = Some w'
    /\ cout w' = "entering Printing 1/5, 120s remaining" +:+ endl
    /\ line_breaks "entering Printing 1/5, 120s remaining" = 0%nat.
Proof.
  exact (Callback_writes_one_line Sample.PrinterStatusUpdate
           Sample.NoUISubState Sample.STATE_NAME Sample.SUBSTATE_NAME
           Sample.UnexpectedEvent Sample.ERR_MSG Sample.entering_status
           Sample.fresh).
Defined.

Lemma status_line_shows_progress_witness :
  Sample.TerminalUI_Callback Sample.PrinterStatusUpdate
    (ObjPrinterStatus Sample.idle_status) Sample.fresh
  = Sample.TerminalUI_Callback Sample.PrinterStatusUpdate
      (ObjPrinterStatus SampleRuns.idle_other) Sample.fresh
  <-> 0 = 0 /\ (0 <> 0 -> 0 = 9 /\ 0 = 77).
Proof.
  apply (status_line_shows_progress Sample.PrinterStatusUpdate
           Sample.NoUISubState Sample.STATE_NAME Sample.SUBSTATE_NAME
           Sample.UnexpectedEvent Sample.ERR_MSG Sample.idle_status
           SampleRuns.idle_other Sample.fresh); reflexivity.
Defined.

Lemma Callback_each_accumulates_witness :
  exists (w' : World) (added : list LogCall),
    Callback_each Sample.PrinterStatusUpdate Sample.NoUISubState
      Sample.STATE_NAME Sample.SUBSTATE_NAME Sample.UnexpectedEvent Sample.ERR_MSG
      SampleRuns.mixed_events Sample.fresh = Some w'
    /\ cout w' = ("entering Printing 1/5, 120s remaining" +:+ endl)
                 +:+ ("Printing " +:+ endl)
    /\ logged w' = added
    /\ map log_value added = [Sample.DoorInterrupt]
    /\ (forall call, In call added ->
          log_priority call = LOG_WARNING
          /\ log_format call = "Unexpected event type: %d").
Proof.
  apply (Callback_each_accumulates Sample.PrinterStatusUpdate
           Sample.NoUISubState Sample.STATE_NAME Sample.SUBSTATE_NAME
           Sample.UnexpectedEvent Sample.ERR_MSG SampleRuns.mixed_events
           Sample.fresh).
  intros e d [H|[H|[H|[]]]]; injection H as <- <-; intros He;
    [eexists; reflexivity | discriminate He | eexists; reflexivity].
Defined.
